(** * LinuxHalSwiftIO platform shim: [swift_platform.c]

    A shallow embedding of the six C functions of
    [Sources/LinuxHalSwiftIO/swift_platform.c] and of the small part of the
    Linux/libc interface they call ([usleep], [sysinfo], [sysconf],
    [getrandom], the cycle-counter instructions and [errno]).

    C integers are [Z] values with the wrap-around of their width written
    out (LP64: [int]/[unsigned] 32 bits, [long]/[size_t]/[long long] 64
    bits).  The C functions are computations in a state monad over the
    program-visible state (memory and [errno]); the operating system is an
    oracle ([os_env]) that fixes the outcome of every call at every logical
    time, so that all definitions evaluate. *)

From Stdlib Require Import ZArith List Lia Bool.
From Stdlib Require Import Strings.Byte.
Import ListNotations.
Local Open Scope Z_scope.

(* ------------------------------------------------------------------ *)
(** ** C integer types (LP64 Linux, x86_64 and AArch64) *)

Module CInt.

Definition wrap_unsigned (bits x : Z) : Z := x mod 2 ^ bits.

Definition wrap_signed (bits x : Z) : Z :=
  (x + 2 ^ (bits - 1)) mod 2 ^ bits - 2 ^ (bits - 1).

(** Conversions to the C types the file uses. *)
Definition cast_int   : Z -> Z := wrap_signed 32.    (* int *)
Definition cast_uint  : Z -> Z := wrap_unsigned 32.  (* unsigned int, useconds_t *)
Definition cast_long  : Z -> Z := wrap_signed 64.    (* long *)
Definition cast_ulong : Z -> Z := wrap_unsigned 64.  (* unsigned long, uint64_t *)
Definition cast_llong : Z -> Z := wrap_signed 64.    (* long long *)
Definition cast_size  : Z -> Z := wrap_unsigned 64.  (* size_t *)

Definition INT_MAX  : Z := 2147483647.
Definition INT_MIN  : Z := -2147483648.
Definition UINT_MAX : Z := 4294967295.
Definition LONG_MAX : Z := 9223372036854775807.
Definition LONG_MIN : Z := -9223372036854775808.

Definition is_int (x : Z) : Prop := INT_MIN <= x <= INT_MAX.
Definition is_uint (x : Z) : Prop := 0 <= x <= UINT_MAX.
Definition is_long (x : Z) : Prop := LONG_MIN <= x <= LONG_MAX.

(** Arithmetic at a type: the mathematical result, wrapped. *)
Definition int_mul (a b : Z) : Z := cast_int (a * b).
Definition int_neg (a : Z) : Z := cast_int (- a).
Definition long_mul (a b : Z) : Z := cast_long (a * b).
Definition ulong_shl (a n : Z) : Z := cast_ulong (Z.shiftl a n).
Definition ulong_or (a b : Z) : Z := Z.lor a b.

End CInt.
Export CInt.

(* ------------------------------------------------------------------ *)
(** ** The operating-system interface *)

(** Error codes the calls below can leave in [errno], with their Linux
    (asm-generic) numbers. *)
Inductive oserr : Type := EINTR | EAGAIN | EFAULT | EINVAL | ENOSYS.

Definition errno_code (e : oserr) : Z :=
  match e with
  | EINTR => 4
  | EAGAIN => 11
  | EFAULT => 14
  | EINVAL => 22
  | ENOSYS => 38
  end.

(** [struct sysinfo]: of its fields the shim reads [uptime] (a [long],
    seconds since boot) only. *)
Record sysinfo_t : Type := mk_sysinfo { uptime : Z }.

(** [sysconf] names: [_SC_CLK_TCK] is 2 in glibc's enumeration. *)
Definition _SC_CLK_TCK : Z := 2.

(** The calls a run makes, in order, with the arguments as the callee
    receives them. *)
Inductive event : Type :=
| EvUsleep (usec : Z)
| EvSysinfo
| EvSysconf (name : Z)
| EvGetrandom (buf buflen flags : Z)
| EvRdtsc
| EvMrsCntvct.

(** The oracle: what the kernel and the hardware answer at logical time
    [t] (the number of calls made so far). *)
Record os_env : Type := mk_env {
  env_usleep    : nat -> Z -> option oserr;   (* [None]: slept *)
  env_sysinfo   : nat -> oserr + Z;           (* seconds since boot *)
  env_clk_tck   : Z;                          (* clock ticks per second *)
  env_getrandom : nat -> oserr + list byte;   (* bytes ready for delivery *)
  env_counter   : nat -> Z                    (* free-running cycle counter *)
}.

(** Program-visible state: byte-addressed memory and the thread's [errno].
    [st_time] and [st_log] are ghost: the logical clock and the call log. *)
Record state : Type := mk_state {
  st_mem   : Z -> byte;
  st_errno : Z;
  st_time  : nat;
  st_log   : list event
}.

Definition tick (ev : event) (s : state) : state :=
  mk_state (st_mem s) (st_errno s) (S (st_time s)) (st_log s ++ [ev]).

Definition set_errno (code : Z) (s : state) : state :=
  mk_state (st_mem s) code (st_time s) (st_log s).

Definition store_bytes (addr : Z) (bs : list byte) (s : state) : state :=
  mk_state
    (fun a =>
       if (addr <=? a) && (a <? addr + Z.of_nat (length bs))
       then nth (Z.to_nat (a - addr)) bs x00
       else st_mem s a)
    (st_errno s) (st_time s) (st_log s).

(* ------------------------------------------------------------------ *)
(** ** The monad of C computations *)

Definition hal (A : Type) : Type := os_env -> state -> A * state.

Definition ret {A : Type} (a : A) : hal A := fun _ s => (a, s).

Definition bind {A B : Type} (m : hal A) (k : A -> hal B) : hal B :=
  fun e s => let (a, s') := m e s in k a e s'.

Declare Scope hal_scope.
Delimit Scope hal_scope with hal.
Notation "x <- m ;; k" := (bind m (fun x => k))
  (at level 61, m at next level, right associativity) : hal_scope.
Notation "' p <- m ;; k" := (bind m (fun p => k))
  (at level 61, p pattern, m at next level, right associativity) : hal_scope.
Notation "m ;;; k" := (bind m (fun _ => k))
  (at level 61, right associativity) : hal_scope.

Definition result {A : Type} (m : hal A) (e : os_env) (s : state) : A :=
  fst (m e s).
Definition after {A : Type} (m : hal A) (e : os_env) (s : state) : state :=
  snd (m e s).

(** The events a run adds to the log. *)
Definition calls {A : Type} (m : hal A) (e : os_env) (s : state) : list event :=
  skipn (length (st_log s)) (st_log (after m e s)).

(* ------------------------------------------------------------------ *)
(** ** libc and hardware primitives *)

(** [int usleep(useconds_t usec)]: the argument is converted to
    [useconds_t] (unsigned int) by the call; on failure -1 and [errno]. *)
Definition usleep (usec : Z) : hal Z := fun e s =>
  let u := cast_uint usec in
  let s1 := tick (EvUsleep u) s in
  match env_usleep e (st_time s) u with
  | None => (0, s1)
  | Some err => (-1, set_errno (errno_code err) s1)
  end.

(** [int sysinfo(struct sysinfo *info)]: 0 and the structure filled, or -1
    and [errno]; after a failure the structure holds nothing the shim
    reads. *)
Definition sysinfo : hal (Z * sysinfo_t) := fun e s =>
  let s1 := tick EvSysinfo s in
  match env_sysinfo e (st_time s) with
  | inr up => ((0, mk_sysinfo up), s1)
  | inl err => ((-1, mk_sysinfo 0), set_errno (errno_code err) s1)
  end.

(** [long sysconf(int name)]: the value, or -1 and [EINVAL] for a name the
    system does not know. *)
Definition sysconf (name : Z) : hal Z := fun e s =>
  let s1 := tick (EvSysconf name) s in
  if name =? _SC_CLK_TCK then (env_clk_tck e, s1)
  else (-1, set_errno (errno_code EINVAL) s1).

(** [ssize_t getrandom(void *buf, size_t buflen, unsigned flags)]: writes
    at most [buflen] bytes at [buf] and returns how many, or returns -1 and
    sets [errno]. *)
Definition getrandom (buf buflen flags : Z) : hal Z := fun e s =>
  let s1 := tick (EvGetrandom buf buflen flags) s in
  match env_getrandom e (st_time s) with
  | inl err => (-1, set_errno (errno_code err) s1)
  | inr ready =>
      let n := Z.min (Z.max 0 buflen) (Z.of_nat (length ready)) in
      let written := firstn (Z.to_nat n) ready in
      (Z.of_nat (length written), store_bytes buf written s1)
  end.

(** The expression [errno]. *)
Definition get_errno : hal Z := fun _ s => (st_errno s, s).

(** [rdtsc]: the low half of the counter in EAX, the high half in EDX. *)
Definition rdtsc : hal (Z * Z) := fun e s =>
  let c := cast_ulong (env_counter e (st_time s)) in
  ((c mod 2 ^ 32, c / 2 ^ 32), tick EvRdtsc s).

(** [mrs %0, cntvct_el0]: the 64-bit virtual counter. *)
Definition mrs_cntvct : hal Z := fun e s =>
  (cast_ulong (env_counter e (st_time s)), tick EvMrsCntvct s).

(** The value the hardware counter holds when read at the time of [s]. *)
Definition hw_counter (e : os_env) (s : state) : Z :=
  cast_ulong (env_counter e (st_time s)).

(* ------------------------------------------------------------------ *)
(** ** The shim: [swift_platform.c] *)

Local Open Scope hal_scope.

(** The two targets the file builds for; any other stops at [#error]. *)
Inductive arch : Type := X86_64 | AArch64.

(** [void swifthal_ms_sleep(int ms) { usleep(ms * 1000); }] *)
Definition swifthal_ms_sleep (ms : Z) : hal unit :=
  usleep (int_mul ms 1000) ;;; ret tt.

(** [void swifthal_us_wait(unsigned int us) { usleep(us); }] *)
Definition swifthal_us_wait (us : Z) : hal unit :=
  usleep us ;;; ret tt.

(** [long long swifthal_uptime_get(void)] *)
Definition swifthal_uptime_get : hal Z :=
  ' (rc, info) <- sysinfo ;;
  if rc <? 0 then
    en <- get_errno ;;
    ret (cast_llong (int_neg en))
  else
    ret (cast_llong (long_mul (uptime info) 1000)).

(** [unsigned int swifthal_hwcycle_get(void)] *)
Definition swifthal_hwcycle_get (target : arch) : hal Z :=
  match target with
  | X86_64 =>
      ' (a, d) <- rdtsc ;;
      ret (cast_uint (ulong_or (cast_ulong a) (ulong_shl (cast_ulong d) 32)))
  | AArch64 =>
      val <- mrs_cntvct ;;
      ret (cast_uint val)
  end.

(** [unsigned int swifthal_hwcycle_to_ns(unsigned int cycles)] *)
Definition swifthal_hwcycle_to_ns (cycles : Z) : hal Z :=
  v <- sysconf _SC_CLK_TCK ;;
  ret (cast_uint v).

(** [void swiftHal_randomGet(unsigned char *buf, int length)] *)
Definition swiftHal_randomGet (buf length : Z) : hal unit :=
  getrandom buf (cast_size length) 0 ;;; ret tt.

Local Close Scope hal_scope.

(* ------------------------------------------------------------------ *)
(** ** Vocabulary of the properties *)

(** The largest uptime, in seconds, whose count of milliseconds a [long]
    holds. *)
Definition UPTIME_MAX : Z := LONG_MAX / 1000.

(** The largest [ms] whose count of microseconds an [int], respectively a
    [useconds_t], holds. *)
Definition MS_INT_MAX : Z := INT_MAX / 1000.
Definition MS_UINT_MAX : Z := UINT_MAX / 1000.

Definition sysinfo_fails (e : os_env) (s : state) : Prop :=
  exists err, env_sysinfo e (st_time s) = inl err.

(** A healthy system: [sysinfo] always succeeds, and the uptime it reports
    is never negative and never goes back. *)
Definition healthy (e : os_env) : Prop :=
  (forall t, exists up, env_sysinfo e t = inr up /\ 0 <= up)
  /\ (forall t t' up up', (t <= t')%nat ->
        env_sysinfo e t = inr up -> env_sysinfo e t' = inr up' -> up <= up').

Definition uptime_bounded (e : os_env) : Prop :=
  forall t up, env_sysinfo e t = inr up -> up <= UPTIME_MAX.

(** What a caller can observe of a state. *)
Definition same_memory (s s' : state) : Prop :=
  forall a, st_mem s' a = st_mem s a.

Definition same_visible (s s' : state) : Prop :=
  same_memory s s' /\ st_errno s' = st_errno s.

Definition in_buffer (buf length a : Z) : Prop := buf <= a < buf + length.

(** Calls to the random source. *)
Definition is_getrandom (ev : event) : bool :=
  match ev with EvGetrandom _ _ _ => true | _ => false end.

(** ** Sample systems *)

Definition s0 : state := mk_state (fun _ => x00) 0 0 [].

(** A system where every call succeeds: booted 12345 s ago (the uptime
    advances with the first million calls), 100 ticks per second, counter
    just above 2^32. *)
Definition env_ok : os_env :=
  mk_env (fun _ _ => None)
         (fun t => inr (12345 + Z.min (Z.of_nat t) 1000000))
         100
         (fun _ => inr [xde; xad; xbe; xef; x01; x02; x03; x04])
         (fun t => 4294967296 + 5 + Z.of_nat t).

(** A system where every fallible call fails. *)
Definition env_failing : os_env :=
  mk_env (fun _ _ => Some EINTR)
         (fun _ => inl EFAULT)
         100
         (fun _ => inl EINTR)
         (fun _ => 0).

(** A system whose random source delivers two bytes per call, however
    many are asked for. *)
Definition env_short : os_env :=
  mk_env (fun _ _ => None)
         (fun _ => inr 12345)
         100
         (fun _ => inr [xaa; xbb])
         (fun _ => 0).

(** The period of the microseconds asked of [usleep] as a function of
    [ms]: 2^29, since 2^29 * 1000 = 125 * 2^32. *)
Definition MS_PERIOD : Z := 536870912.

(* ------------------------------------------------------------------ *)
(** ** Facts on the integer conversions *)

Section Casts.

Lemma pow2_32 : 2 ^ 32 = 4294967296.
Proof. reflexivity. Qed.

Lemma pow2_31 : 2 ^ (32 - 1) = 2147483648.
Proof. reflexivity. Qed.

Lemma pow2_64 : 2 ^ 64 = 18446744073709551616.
Proof. reflexivity. Qed.

Lemma pow2_63 : 2 ^ (64 - 1) = 9223372036854775808.
Proof. reflexivity. Qed.

Lemma cast_uint_small (x : Z) : is_uint x -> cast_uint x = x.
Proof.
  unfold is_uint, UINT_MAX, cast_uint, wrap_unsigned. intros H.
  rewrite pow2_32. apply Z.mod_small. lia.
Qed.

Lemma cast_uint_range (x : Z) : is_uint (cast_uint x).
Proof.
  unfold is_uint, UINT_MAX, cast_uint, wrap_unsigned. rewrite pow2_32.
  pose proof (Z.mod_pos_bound x 4294967296). lia.
Qed.

Lemma cast_int_small (x : Z) : is_int x -> cast_int x = x.
Proof.
  unfold is_int, INT_MIN, INT_MAX, cast_int, wrap_signed. intros H.
  rewrite pow2_32, pow2_31. rewrite Z.mod_small; lia.
Qed.

Lemma cast_long_small (x : Z) : is_long x -> cast_long x = x.
Proof.
  unfold is_long, LONG_MIN, LONG_MAX, cast_long, wrap_signed. intros H.
  rewrite pow2_64, pow2_63. rewrite Z.mod_small; lia.
Qed.

Lemma cast_llong_small (x : Z) : is_long x -> cast_llong x = x.
Proof. exact (cast_long_small x). Qed.

Lemma wrap_signed_64_range (x : Z) : is_long (cast_llong x).
Proof.
  unfold is_long, LONG_MIN, LONG_MAX, cast_llong, wrap_signed.
  rewrite pow2_64, pow2_63.
  pose proof (Z.mod_pos_bound (x + 9223372036854775808) 18446744073709551616).
  lia.
Qed.

Lemma cast_size_small (x : Z) : 0 <= x <= LONG_MAX -> cast_size x = x.
Proof.
  unfold LONG_MAX, cast_size, wrap_unsigned. intros H.
  rewrite pow2_64. apply Z.mod_small. lia.
Qed.

(** Converting an [int] to [unsigned] forgets that it was wrapped as a
    signed value first. *)
Lemma cast_uint_int (x : Z) : cast_uint (cast_int x) = cast_uint x.
Proof.
  unfold cast_uint, cast_int, wrap_unsigned, wrap_signed.
  rewrite pow2_32, pow2_31.
  rewrite Zminus_mod_idemp_l.
  now replace (x + 2147483648 - 2147483648) with x by lia.
Qed.

Lemma cast_uint_idem (x : Z) : cast_uint (cast_uint x) = cast_uint x.
Proof. apply cast_uint_small, cast_uint_range. Qed.

(** The low word of a 64-bit value split into halves and put together
    again, as the x86_64 branch does with EAX and EDX. *)
Lemma low_word_of_halves (c : Z) :
  0 <= c < 2 ^ 64 ->
  cast_uint (ulong_or (cast_ulong (c mod 2 ^ 32))
                      (ulong_shl (cast_ulong (c / 2 ^ 32)) 32))
  = c mod 2 ^ 32.
Proof.
  intros Hc. rewrite pow2_64 in Hc.
  unfold ulong_or, ulong_shl, cast_ulong, cast_uint, wrap_unsigned.
  rewrite Z.shiftl_mul_pow2 by lia.
  rewrite pow2_32, pow2_64.
  assert (Hlo : 0 <= c mod 4294967296 < 4294967296)
    by (apply Z.mod_pos_bound; lia).
  assert (Hhi : 0 <= c / 4294967296 < 4294967296).
  { split.
    - apply Z.div_pos; lia.
    - apply Z.div_lt_upper_bound; lia. }
  rewrite (Z.mod_small (c mod 4294967296)) by lia.
  rewrite (Z.mod_small (c / 4294967296)) by lia.
  rewrite (Z.mod_small (c / 4294967296 * 4294967296)) by lia.
  rewrite <- pow2_32.
  rewrite <- !Z.land_ones by lia.
  rewrite Z.land_lor_distr_l.
  rewrite !Z.land_ones by lia.
  rewrite Z.mod_mod by (rewrite pow2_32; lia).
  rewrite Z.mod_mul by (rewrite pow2_32; lia).
  apply Z.lor_0_r.
Qed.

Lemma cast_ulong_range (x : Z) : 0 <= cast_ulong x < 2 ^ 64.
Proof.
  unfold cast_ulong, wrap_unsigned. apply Z.mod_pos_bound.
  rewrite pow2_64. lia.
Qed.

End Casts.

(* ------------------------------------------------------------------ *)
(** ** Facts on runs *)

Section Runs.

Lemma skipn_own_length {A : Type} (l l' : list A) :
  skipn (length l) (l ++ l') = l'.
Proof. induction l as [| x l IH]; simpl; auto. Qed.

Lemma calls_usleep (usec : Z) (e : os_env) (s : state) :
  calls (usleep usec) e s = [EvUsleep (cast_uint usec)].
Proof.
  unfold calls, after, usleep.
  destruct (env_usleep e (st_time s) (cast_uint usec)); simpl;
    apply skipn_own_length.
Qed.

Lemma calls_getrandom (buf buflen flags : Z) (e : os_env) (s : state) :
  calls (getrandom buf buflen flags) e s = [EvGetrandom buf buflen flags].
Proof.
  unfold calls, after, getrandom.
  destruct (env_getrandom e (st_time s)); simpl; apply skipn_own_length.
Qed.

(** A call followed by [ret tt] makes the calls of the call. *)
Lemma calls_then_ret {A : Type} (m : hal A) (e : os_env) (s : state) :
  calls (bind m (fun _ => ret tt)) e s = calls m e s.
Proof.
  unfold calls, after, bind, ret. destruct (m e s); reflexivity.
Qed.

Lemma after_then_ret {A : Type} (m : hal A) (e : os_env) (s : state) :
  after (bind m (fun _ => ret tt)) e s = after m e s.
Proof.
  unfold after, bind, ret. destruct (m e s); reflexivity.
Qed.

End Runs.

(* ------------------------------------------------------------------ *)
(** ** Cycle-to-nanosecond conversion *)

(** C1. For every input [cycles], [swifthal_hwcycle_to_ns] makes the one
    call [sysconf(_SC_CLK_TCK)] and returns its value as an [unsigned int]:
    the clock-ticks-per-second value itself whenever that is an
    [unsigned int].  [cycles] is ignored: the whole run is the same for
    every input. *)
Theorem hwcycle_to_ns_ignores_cycles (cycles : Z) (e : os_env) (s : state) :
  calls (swifthal_hwcycle_to_ns cycles) e s = [EvSysconf _SC_CLK_TCK]
  /\ result (swifthal_hwcycle_to_ns cycles) e s = cast_uint (env_clk_tck e)
  /\ (is_uint (env_clk_tck e) ->
      result (swifthal_hwcycle_to_ns cycles) e s = env_clk_tck e)
  /\ (forall cycles',
        swifthal_hwcycle_to_ns cycles' e s = swifthal_hwcycle_to_ns cycles e s).
Proof.
  unfold calls, after, result, swifthal_hwcycle_to_ns, bind, ret, sysconf.
  rewrite Z.eqb_refl. cbn [fst snd tick st_log].
  repeat split.
  - apply skipn_own_length.
  - intros Hu. now apply cast_uint_small.
Qed.

Lemma hwcycle_to_ns_ignores_cycles_witness :
  result (swifthal_hwcycle_to_ns 123456) env_ok s0 = 100.
Proof.
  apply (proj1 (proj2 (proj2 (hwcycle_to_ns_ignores_cycles 123456 env_ok s0)))).
  unfold is_uint, UINT_MAX; simpl; lia.
Defined.

(* ------------------------------------------------------------------ *)
(** ** Sleeping *)

Lemma ms_sleep_calls (ms : Z) (e : os_env) (s : state) :
  calls (swifthal_ms_sleep ms) e s = [EvUsleep (cast_uint (ms * 1000))].
Proof.
  unfold swifthal_ms_sleep. rewrite calls_then_ret, calls_usleep.
  unfold int_mul. now rewrite cast_uint_int.
Qed.

Lemma ms_sleep_us_wait (ms : Z) (e : os_env) (s : state) :
  swifthal_ms_sleep ms e s = swifthal_us_wait (ms * 1000) e s.
Proof.
  unfold swifthal_ms_sleep, swifthal_us_wait, bind, usleep, int_mul.
  now rewrite cast_uint_int.
Qed.

Lemma us_wait_cast (us : Z) (e : os_env) (s : state) :
  swifthal_us_wait (cast_uint us) e s = swifthal_us_wait us e s.
Proof.
  unfold swifthal_us_wait, bind, usleep. now rewrite cast_uint_idem.
Qed.

(** C3, as the code has it. For every [ms] from 0 to 4294967 (UINT_MAX /
    1000) [swifthal_ms_sleep] makes one call of [usleep], and the
    microseconds it asks for are [ms * 1000]. *)
Theorem ms_sleep_requests_ms_times_1000 (ms : Z) (e : os_env) (s : state) :
  0 <= ms <= MS_UINT_MAX ->
  calls (swifthal_ms_sleep ms) e s = [EvUsleep (ms * 1000)].
Proof.
  change MS_UINT_MAX with 4294967. intros H.
  rewrite ms_sleep_calls, cast_uint_small; [reflexivity |].
  unfold is_uint, UINT_MAX. lia.
Qed.

Lemma ms_sleep_requests_ms_times_1000_witness :
  calls (swifthal_ms_sleep 250) env_ok s0 = [EvUsleep 250000].
Proof.
  apply (ms_sleep_requests_ms_times_1000 250 env_ok s0).
  change MS_UINT_MAX with 4294967. lia.
Defined.

(** C3, as stated, fails: at [ms = 4294968], a non-negative [int], the
    microseconds asked for are 704 and not 4294968000. *)
Lemma ms_sleep_4294968_requests_704 :
  0 <= 4294968 <= INT_MAX
  /\ calls (swifthal_ms_sleep 4294968) env_ok s0 = [EvUsleep 704]
  /\ calls (swifthal_ms_sleep 4294968) env_ok s0 <> [EvUsleep (4294968 * 1000)].
Proof.
  split; [unfold INT_MAX; lia |].
  split; [reflexivity |]. vm_compute. discriminate.
Qed.

(** C6. For every non-negative [ms], [swifthal_ms_sleep ms] and
    [swifthal_us_wait] called with [ms * 1000] (which the call converts to
    its [unsigned int] parameter) are the same run: same result, same
    state afterwards, and the one call of [usleep] with the same argument. *)
Theorem ms_sleep_is_us_wait (ms : Z) (e : os_env) (s : state) :
  0 <= ms ->
  swifthal_ms_sleep ms e s = swifthal_us_wait (cast_uint (ms * 1000)) e s
  /\ swifthal_ms_sleep ms e s = swifthal_us_wait (ms * 1000) e s
  /\ calls (swifthal_ms_sleep ms) e s = [EvUsleep (cast_uint (ms * 1000))]
  /\ calls (swifthal_us_wait (cast_uint (ms * 1000))) e s
     = [EvUsleep (cast_uint (ms * 1000))].
Proof.
  intros _. repeat split.
  - now rewrite us_wait_cast, ms_sleep_us_wait.
  - apply ms_sleep_us_wait.
  - apply ms_sleep_calls.
  - unfold swifthal_us_wait.
    now rewrite calls_then_ret, calls_usleep, cast_uint_idem.
Qed.

Lemma ms_sleep_is_us_wait_witness :
  swifthal_ms_sleep 250 env_ok s0 = swifthal_us_wait 250000 env_ok s0.
Proof.
  apply (proj1 (ms_sleep_is_us_wait 250 env_ok s0 ltac:(lia))).
Defined.

(** C10, as the code has it. For every [int ms] above INT_MAX / 1000 the
    product [ms * 1000] does not fit an [int] and the [int] the code
    computes is not that product; the microseconds asked of [usleep] are
    [(ms * 1000) mod 2^32]; and they differ from [ms * 1000] exactly when
    [ms] is above UINT_MAX / 1000 = 4294967. *)
Theorem ms_sleep_overflow (ms : Z) (e : os_env) (s : state) :
  MS_INT_MAX < ms <= INT_MAX ->
  INT_MAX < ms * 1000
  /\ int_mul ms 1000 <> ms * 1000
  /\ calls (swifthal_ms_sleep ms) e s = [EvUsleep ((ms * 1000) mod 2 ^ 32)]
  /\ ((ms * 1000) mod 2 ^ 32 <> ms * 1000 <-> MS_UINT_MAX < ms).
Proof.
  change MS_INT_MAX with 2147483. change MS_UINT_MAX with 4294967.
  unfold INT_MAX. intros H.
  split; [lia |]. split.
  - unfold int_mul, cast_int, wrap_signed. rewrite pow2_32, pow2_31.
    pose proof (Z.mod_pos_bound (ms * 1000 + 2147483648) 4294967296). lia.
  - split; [apply ms_sleep_calls |].
    rewrite pow2_32.
    pose proof (Z.mod_pos_bound (ms * 1000) 4294967296).
    split.
    + intros Hne. destruct (Z_le_gt_dec ms 4294967) as [Hle | Hgt]; [| lia].
      exfalso. apply Hne. apply Z.mod_small. lia.
    + lia.
Qed.

Lemma ms_sleep_overflow_witness :
  calls (swifthal_ms_sleep 5000000) env_ok s0
  = [EvUsleep ((5000000 * 1000) mod 2 ^ 32)].
Proof.
  assert (H : MS_INT_MAX < 5000000 <= INT_MAX)
    by (change MS_INT_MAX with 2147483; unfold INT_MAX; lia).
  apply (proj1 (proj2 (proj2 (ms_sleep_overflow 5000000 env_ok s0 H)))).
Defined.

(** C10, as stated, fails: at [ms = 2147484], above INT_MAX / 1000, the
    [int] product overflows, and yet the microseconds asked of [usleep]
    are exactly 1000 times [ms]. *)
Lemma ms_sleep_2147484_requests_exact :
  MS_INT_MAX < 2147484 <= INT_MAX
  /\ INT_MAX < 2147484 * 1000
  /\ calls (swifthal_ms_sleep 2147484) env_ok s0 = [EvUsleep (1000 * 2147484)].
Proof.
  change MS_INT_MAX with 2147483. unfold INT_MAX.
  split; [lia |]. split; [lia | reflexivity].
Qed.

(* ------------------------------------------------------------------ *)
(** ** Uptime *)

Section Uptime.

Variables (e : os_env) (s : state).

Lemma uptime_get_success (up : Z) :
  env_sysinfo e (st_time s) = inr up ->
  swifthal_uptime_get e s
  = (cast_llong (long_mul up 1000), tick EvSysinfo s).
Proof.
  intros H. unfold swifthal_uptime_get, bind, sysinfo, ret.
  rewrite H. reflexivity.
Qed.

Lemma uptime_get_failure (err : oserr) :
  env_sysinfo e (st_time s) = inl err ->
  swifthal_uptime_get e s
  = (- errno_code err, set_errno (errno_code err) (tick EvSysinfo s)).
Proof.
  intros H. unfold swifthal_uptime_get, bind, sysinfo, ret, get_errno.
  rewrite H. destruct err; reflexivity.
Qed.

Lemma errno_code_pos (err : oserr) : 0 < errno_code err.
Proof. destruct err; reflexivity. Qed.

Lemma ms_of_uptime_fits (up : Z) :
  - UPTIME_MAX <= up <= UPTIME_MAX ->
  cast_llong (long_mul up 1000) = up * 1000.
Proof.
  change UPTIME_MAX with 9223372036854775. intros H.
  assert (Hl : is_long (up * 1000))
    by (unfold is_long, LONG_MIN, LONG_MAX; lia).
  unfold long_mul. rewrite (cast_long_small _ Hl).
  now apply cast_llong_small.
Qed.

Lemma uptime_get_in_range (up : Z) :
  env_sysinfo e (st_time s) = inr up ->
  - UPTIME_MAX <= up <= UPTIME_MAX ->
  result swifthal_uptime_get e s = up * 1000.
Proof.
  intros H Hr. unfold result. rewrite (uptime_get_success up H).
  now apply ms_of_uptime_fits.
Qed.

End Uptime.

(** C2. When [sysinfo] succeeds, [swifthal_uptime_get] returns the uptime
    times 1000, the milliseconds fitting the [long] they are computed in
    (an uptime of at most 9223372036854775 s in magnitude, which covers
    every uptime a system reports).  When [sysinfo] fails it returns the negated error
    code, a negative value whose magnitude is the [errno] the call left.
    For a non-negative uptime in that range, the return value is negative
    if and only if [sysinfo] failed.  In every case the function returns:
    its result is a value of [long long]. *)
Theorem uptime_get_contract (e : os_env) (s : state) :
  (forall up, env_sysinfo e (st_time s) = inr up ->
     - UPTIME_MAX <= up <= UPTIME_MAX ->
     result swifthal_uptime_get e s = up * 1000)
  /\ (forall err, env_sysinfo e (st_time s) = inl err ->
        result swifthal_uptime_get e s = - errno_code err
        /\ result swifthal_uptime_get e s < 0
        /\ result swifthal_uptime_get e s
           = - st_errno (after swifthal_uptime_get e s))
  /\ ((forall up, env_sysinfo e (st_time s) = inr up ->
         0 <= up <= UPTIME_MAX) ->
      (result swifthal_uptime_get e s < 0 <-> sysinfo_fails e s))
  /\ (exists r, result swifthal_uptime_get e s = r /\ is_long r).
Proof.
  split; [| split; [| split]].
  - intros up H Hr. now apply uptime_get_in_range.
  - intros err H. unfold result, after.
    rewrite (uptime_get_failure e s err H). cbn [fst snd set_errno st_errno].
    pose proof (errno_code_pos err). repeat split; lia.
  - intros Hup. unfold sysinfo_fails. split.
    + intros Hneg. destruct (env_sysinfo e (st_time s)) as [err | up] eqn:H.
      * now exists err.
      * exfalso. specialize (Hup up eq_refl).
        rewrite (uptime_get_in_range e s up H) in Hneg; lia.
    + intros [err H]. unfold result.
      rewrite (uptime_get_failure e s err H). cbn [fst].
      pose proof (errno_code_pos err). lia.
  - eexists. split; [reflexivity |].
    destruct (env_sysinfo e (st_time s)) as [err | up] eqn:H; unfold result.
    + rewrite (uptime_get_failure e s err H). cbn [fst].
      destruct err; unfold is_long, LONG_MIN, LONG_MAX; cbn; lia.
    + rewrite (uptime_get_success e s up H). cbn [fst].
      apply wrap_signed_64_range.
Qed.

Lemma uptime_get_contract_witness :
  result swifthal_uptime_get env_ok s0 = 12345 * 1000.
Proof.
  apply (proj1 (uptime_get_contract env_ok s0) 12345).
  - reflexivity.
  - change UPTIME_MAX with 9223372036854775. lia.
Defined.

(** C7. On a healthy system ([sysinfo] succeeds, the uptime is
    non-negative and never goes back; its milliseconds fit a [long], the
    uptime staying at or below [UPTIME_MAX] seconds),
    [swifthal_uptime_get] returns a non-negative value, and of two
    successive calls the later returns at least what the earlier did. *)
Theorem uptime_get_monotone (e : os_env) (s1 s2 : state) :
  healthy e -> uptime_bounded e ->
  (st_time s1 <= st_time s2)%nat ->
  0 <= result swifthal_uptime_get e s1
  /\ result swifthal_uptime_get e s1 <= result swifthal_uptime_get e s2.
Proof.
  intros [Hok Hmono] Hb Ht.
  destruct (Hok (st_time s1)) as [u1 [H1 Hu1]].
  destruct (Hok (st_time s2)) as [u2 [H2 Hu2]].
  pose proof (Hmono _ _ _ _ Ht H1 H2) as Hle.
  pose proof (Hb _ _ H1) as Hb1. pose proof (Hb _ _ H2) as Hb2.
  rewrite (uptime_get_in_range e s1 u1 H1) by lia.
  rewrite (uptime_get_in_range e s2 u2 H2) by lia.
  lia.
Qed.

Lemma env_ok_uptime (t : nat) (up : Z) :
  env_sysinfo env_ok t = inr up -> up = 12345 + Z.min (Z.of_nat t) 1000000.
Proof.
  change (env_sysinfo env_ok t)
    with (@inr oserr Z (12345 + Z.min (Z.of_nat t) 1000000)).
  congruence.
Qed.

Lemma env_ok_healthy : healthy env_ok.
Proof.
  split.
  - intros t. eexists. split; [reflexivity | lia].
  - intros t t' up up' Ht H H'.
    apply env_ok_uptime in H, H'. lia.
Qed.

Lemma env_ok_uptime_bounded : uptime_bounded env_ok.
Proof.
  intros t up H. apply env_ok_uptime in H.
  change UPTIME_MAX with 9223372036854775. lia.
Qed.

Lemma uptime_get_monotone_witness :
  0 <= result swifthal_uptime_get env_ok s0
  /\ result swifthal_uptime_get env_ok s0
     <= result swifthal_uptime_get env_ok (after swifthal_uptime_get env_ok s0).
Proof.
  apply (uptime_get_monotone env_ok s0 (after swifthal_uptime_get env_ok s0)
           env_ok_healthy env_ok_uptime_bounded).
  simpl. lia.
Defined.

(** C9. Whenever [swifthal_uptime_get] succeeds (returns a non-negative
    value; the uptime read is at most [UPTIME_MAX] seconds in magnitude,
    so that its milliseconds fit a [long]), the value returned is a whole
    multiple of 1000: it carries whole seconds only. *)
Theorem uptime_get_whole_seconds (e : os_env) (s : state) :
  (forall up, env_sysinfo e (st_time s) = inr up ->
     - UPTIME_MAX <= up <= UPTIME_MAX) ->
  0 <= result swifthal_uptime_get e s ->
  result swifthal_uptime_get e s mod 1000 = 0.
Proof.
  intros Hup Hpos.
  destruct (env_sysinfo e (st_time s)) as [err | up] eqn:H.
  - exfalso. revert Hpos. unfold result.
    rewrite (uptime_get_failure e s err H). cbn [fst].
    pose proof (errno_code_pos err). lia.
  - rewrite (uptime_get_in_range e s up H (Hup up eq_refl)).
    apply Z.mod_mul. lia.
Qed.

Lemma uptime_get_whole_seconds_witness :
  result swifthal_uptime_get env_ok s0 mod 1000 = 0.
Proof.
  apply (uptime_get_whole_seconds env_ok s0).
  - intros up H. apply env_ok_uptime in H.
    change UPTIME_MAX with 9223372036854775. lia.
  - vm_compute. discriminate.
Defined.


(* ------------------------------------------------------------------ *)
(** ** Cycle counter *)

(** C4, as the code has it. On both targets [swifthal_hwcycle_get] reads
    the 64-bit counter once and returns it as an [unsigned int]: the
    counter value modulo 2^32, its low 32 bits; the high 32 bits are
    dropped. *)
Theorem hwcycle_get_low_word (target : arch) (e : os_env) (s : state) :
  result (swifthal_hwcycle_get target) e s = hw_counter e s mod 2 ^ 32
  /\ calls (swifthal_hwcycle_get target) e s
     = [match target with X86_64 => EvRdtsc | AArch64 => EvMrsCntvct end].
Proof.
  destruct target; split.
  - unfold result, swifthal_hwcycle_get, bind, rdtsc, ret, hw_counter.
    cbn [fst]. apply low_word_of_halves, cast_ulong_range.
  - unfold calls, after, swifthal_hwcycle_get, bind, rdtsc, ret.
    cbn [snd tick st_log]. apply skipn_own_length.
  - reflexivity.
  - unfold calls, after, swifthal_hwcycle_get, bind, mrs_cntvct, ret.
    cbn [snd tick st_log]. apply skipn_own_length.
Qed.

(** C4, as stated, fails: with the counter at 2^32 + 5, a 64-bit value,
    both targets return 5, which is not the counter modulo 2^64. *)
Lemma hwcycle_get_drops_high_word :
  hw_counter env_ok s0 mod 2 ^ 64 = 4294967301
  /\ result (swifthal_hwcycle_get X86_64) env_ok s0 = 5
  /\ result (swifthal_hwcycle_get AArch64) env_ok s0 = 5
  /\ result (swifthal_hwcycle_get X86_64) env_ok s0
     <> hw_counter env_ok s0 mod 2 ^ 64
  /\ result (swifthal_hwcycle_get AArch64) env_ok s0
     <> hw_counter env_ok s0 mod 2 ^ 64.
Proof.
  repeat split; vm_compute; discriminate.
Qed.

(* ------------------------------------------------------------------ *)
(** ** Random bytes *)

(** C5. For every buffer and length, whatever the system answers (an
    error, fewer bytes than asked for, or all of them),
    [swiftHal_randomGet] makes exactly one call, to [getrandom] with the
    buffer, the length as a [size_t] and flags 0, and what it returns is
    the one value of [unit]: the same after a failure as after a success. *)
Theorem randomGet_calls_once (buf length : Z) (e : os_env) (s : state) :
  calls (swiftHal_randomGet buf length) e s
  = [EvGetrandom buf (cast_size length) 0]
  /\ List.length (filter is_getrandom
                    (calls (swiftHal_randomGet buf length) e s)) = 1%nat
  /\ result (swiftHal_randomGet buf length) e s = tt
  /\ (forall e' s',
        result (swiftHal_randomGet buf length) e' s'
        = result (swiftHal_randomGet buf length) e s).
Proof.
  assert (H : calls (swiftHal_randomGet buf length) e s
              = [EvGetrandom buf (cast_size length) 0]).
  { unfold swiftHal_randomGet. now rewrite calls_then_ret, calls_getrandom. }
  rewrite H. repeat split.
  - now destruct (result (swiftHal_randomGet buf length) e s).
  - intros e' s'.
    now destruct (result (swiftHal_randomGet buf length) e' s'),
                 (result (swiftHal_randomGet buf length) e s).
Qed.

Section Frame.

Variables (e : os_env) (s : state).

Lemma usleep_frame (usec : Z) :
  same_memory s (after (usleep usec) e s)
  /\ (env_usleep e (st_time s) (cast_uint usec) = None ->
      st_errno (after (usleep usec) e s) = st_errno s).
Proof.
  unfold after, usleep, same_memory.
  destruct (env_usleep e (st_time s) (cast_uint usec)); cbn; split;
    auto; discriminate.
Qed.

Lemma getrandom_delivers_at_most (buflen : Z) (ready : list byte) :
  0 <= buflen ->
  Z.of_nat (List.length
              (firstn (Z.to_nat (Z.min (Z.max 0 buflen)
                                       (Z.of_nat (List.length ready))))
                      ready))
  <= buflen.
Proof.
  intros H. rewrite length_firstn. lia.
Qed.

Lemma getrandom_frame (buf buflen flags : Z) :
  0 <= buflen ->
  (forall a, ~ in_buffer buf buflen a ->
     st_mem (after (getrandom buf buflen flags) e s) a = st_mem s a)
  /\ (forall ready, env_getrandom e (st_time s) = inr ready ->
        st_errno (after (getrandom buf buflen flags) e s) = st_errno s)
  /\ (forall err, env_getrandom e (st_time s) = inl err ->
        same_memory s (after (getrandom buf buflen flags) e s)
        /\ st_errno (after (getrandom buf buflen flags) e s)
           = errno_code err).
Proof.
  intros Hlen. unfold after, getrandom, in_buffer, same_memory.
  destruct (env_getrandom e (st_time s)) as [err | ready];
    cbn [snd set_errno store_bytes tick st_mem st_errno].
  - split; [reflexivity | split; [discriminate |]].
    intros err' Herr. injection Herr as <-.
    split; [intros a |]; reflexivity.
  - split; [| split; [reflexivity | discriminate]].
    intros a Hout.
    pose proof (getrandom_delivers_at_most buflen ready Hlen) as Hn.
    destruct (buf <=? a) eqn:Hlo; [| reflexivity].
    destruct (a <? _) eqn:Hhi; [| reflexivity].
    apply Z.leb_le in Hlo. apply Z.ltb_lt in Hhi. exfalso. lia.
Qed.

End Frame.

(** C8, as the code has it. For every buffer and non-negative length,
    [swiftHal_randomGet] changes memory only at [buf[0]] to
    [buf[length-1]].  Memory apart, the one piece of program-visible
    state the six functions can change is [errno], and only when the call
    they make ([getrandom], [usleep], [sysinfo]) fails: it then holds the
    error code.  When that call succeeds nothing else changes; the sleeps
    and the uptime query never change memory; the cycle counter read and
    the conversion change neither memory nor [errno]. *)
Theorem shim_frame (e : os_env) (s : state) :
  (forall buf length, 0 <= length <= INT_MAX ->
     (forall a, ~ in_buffer buf length a ->
        st_mem (after (swiftHal_randomGet buf length) e s) a = st_mem s a)
     /\ (forall ready, env_getrandom e (st_time s) = inr ready ->
           st_errno (after (swiftHal_randomGet buf length) e s) = st_errno s)
     /\ (forall err, env_getrandom e (st_time s) = inl err ->
           same_memory s (after (swiftHal_randomGet buf length) e s)
           /\ st_errno (after (swiftHal_randomGet buf length) e s)
              = errno_code err))
  /\ (forall ms,
        same_memory s (after (swifthal_ms_sleep ms) e s)
        /\ (env_usleep e (st_time s) (cast_uint (ms * 1000)) = None ->
            same_visible s (after (swifthal_ms_sleep ms) e s)))
  /\ (forall us,
        same_memory s (after (swifthal_us_wait us) e s)
        /\ (env_usleep e (st_time s) (cast_uint us) = None ->
            same_visible s (after (swifthal_us_wait us) e s)))
  /\ (same_memory s (after swifthal_uptime_get e s)
      /\ (forall up, env_sysinfo e (st_time s) = inr up ->
            same_visible s (after swifthal_uptime_get e s)))
  /\ (forall target, same_visible s (after (swifthal_hwcycle_get target) e s))
  /\ (forall cycles, same_visible s (after (swifthal_hwcycle_to_ns cycles) e s)).
Proof.
  repeat apply conj.
  - intros buf length Hlen. unfold swiftHal_randomGet.
    rewrite after_then_ret.
    rewrite cast_size_small by (unfold INT_MAX, LONG_MAX in *; lia).
    apply getrandom_frame. lia.
  - intros ms. unfold swifthal_ms_sleep. rewrite after_then_ret.
    unfold int_mul. pose proof (usleep_frame e s (cast_int (ms * 1000))) as [Hm He].
    rewrite cast_uint_int in He.
    split; [exact Hm |]. intros Hok. split; auto.
  - intros us. unfold swifthal_us_wait. rewrite after_then_ret.
    pose proof (usleep_frame e s us) as [Hm He].
    split; [exact Hm |]. intros Hok. split; auto.
  - intros a. unfold after.
    destruct (env_sysinfo e (st_time s)) as [err | up] eqn:H.
    + now rewrite (uptime_get_failure e s err H).
    + now rewrite (uptime_get_success e s up H).
  - intros up H. unfold after. rewrite (uptime_get_success e s up H).
    split; [intros a |]; reflexivity.
  - intros target. destruct target; split; try intros a; reflexivity.
  - intros cycles. split; try intros a; reflexivity.
Qed.

Lemma shim_frame_witness :
  st_mem (after (swiftHal_randomGet 4096 4) env_ok s0) 4100 = st_mem s0 4100.
Proof.
  assert (Hlen : 0 <= 4 <= INT_MAX) by (unfold INT_MAX; lia).
  apply (proj1 (proj1 (shim_frame env_ok s0) 4096 4 Hlen) 4100).
  unfold in_buffer. lia.
Defined.

(** C8, as stated, fails: when [getrandom] fails, [swiftHal_randomGet]
    leaves its error code in [errno], and so do the sleeps when [usleep]
    fails and the uptime query when [sysinfo] fails. *)
Lemma shim_changes_errno_on_failure :
  st_errno s0 = 0
  /\ st_errno (after (swiftHal_randomGet 4096 4) env_failing s0) = 4
  /\ st_errno (after (swifthal_ms_sleep 250) env_failing s0) = 4
  /\ st_errno (after (swifthal_us_wait 250) env_failing s0) = 4
  /\ st_errno (after swifthal_uptime_get env_failing s0) = 14
  /\ st_errno (after (swiftHal_randomGet 4096 4) env_failing s0)
     <> st_errno s0.
Proof.
  repeat split. vm_compute. discriminate.
Qed.


(* ------------------------------------------------------------------ *)
(** ** Further properties of the sleeps *)

Lemma cast_uint_shift (x k : Z) : cast_uint (x + k * 2 ^ 32) = cast_uint x.
Proof. unfold cast_uint, wrap_unsigned. apply Z_mod_plus_full. Qed.

(** X1. A negative [ms] is not treated as "no sleep": for
    [-4294967 <= ms < 0] the microseconds asked of [usleep] are
    [2^32 + ms * 1000], the product read as an unsigned value. *)
Theorem ms_sleep_negative (ms : Z) (e : os_env) (s : state) :
  - MS_UINT_MAX <= ms < 0 ->
  calls (swifthal_ms_sleep ms) e s = [EvUsleep (2 ^ 32 + ms * 1000)].
Proof.
  change MS_UINT_MAX with 4294967. intros H.
  rewrite ms_sleep_calls.
  rewrite <- (cast_uint_shift (ms * 1000) 1).
  rewrite cast_uint_small.
  - do 2 f_equal. lia.
  - unfold is_uint, UINT_MAX. rewrite pow2_32. lia.
Qed.

Lemma ms_sleep_negative_witness :
  calls (swifthal_ms_sleep (-1)) env_ok s0 = [EvUsleep (2 ^ 32 + -1 * 1000)].
Proof.
  apply (ms_sleep_negative (-1) env_ok s0).
  change MS_UINT_MAX with 4294967. lia.
Defined.

(** X2. The sleep requested is periodic in [ms] with period 2^29 =
    536870912: [swifthal_ms_sleep (ms + 536870912)] is the same run as
    [swifthal_ms_sleep ms], with the same call of [usleep]. *)
Theorem ms_sleep_periodic (ms : Z) (e : os_env) (s : state) :
  swifthal_ms_sleep (ms + MS_PERIOD) e s = swifthal_ms_sleep ms e s
  /\ calls (swifthal_ms_sleep (ms + MS_PERIOD)) e s
     = [EvUsleep (cast_uint (ms * 1000))].
Proof.
  assert (Hc : cast_uint ((ms + MS_PERIOD) * 1000) = cast_uint (ms * 1000)).
  { rewrite <- (cast_uint_shift (ms * 1000) 125). f_equal.
    unfold MS_PERIOD. rewrite pow2_32. lia. }
  split.
  - rewrite !ms_sleep_us_wait.
    rewrite <- (us_wait_cast ((ms + MS_PERIOD) * 1000)), Hc.
    apply us_wait_cast.
  - now rewrite ms_sleep_calls, Hc.
Qed.

(** X3. [swifthal_us_wait] passes its argument on as it is: for every
    [unsigned int us], up to 4294967295, the one call it makes is
    [usleep(us)]. *)
Theorem us_wait_requests_us (us : Z) (e : os_env) (s : state) :
  is_uint us ->
  calls (swifthal_us_wait us) e s = [EvUsleep us].
Proof.
  intros H. unfold swifthal_us_wait.
  now rewrite calls_then_ret, calls_usleep, cast_uint_small.
Qed.

Lemma us_wait_requests_us_witness :
  calls (swifthal_us_wait 4000000000) env_ok s0 = [EvUsleep 4000000000].
Proof.
  apply (us_wait_requests_us 4000000000 env_ok s0).
  unfold is_uint, UINT_MAX. lia.
Defined.

Lemma usleep_failure (usec : Z) (e : os_env) (s : state) (err : oserr) :
  env_usleep e (st_time s) (cast_uint usec) = Some err ->
  usleep usec e s
  = (-1, set_errno (errno_code err) (tick (EvUsleep (cast_uint usec)) s)).
Proof. intros H. unfold usleep. now rewrite H. Qed.

(** X4. A sleep that [usleep] cuts short or refuses is not taken up again:
    when the call fails, [swifthal_ms_sleep] and [swifthal_us_wait] have
    made that one call only, return as after a full sleep, leave memory as
    it was, and leave the error code in [errno]. *)
Theorem sleep_failure_not_retried (e : os_env) (s : state) (err : oserr) :
  (forall ms,
     env_usleep e (st_time s) (cast_uint (ms * 1000)) = Some err ->
     calls (swifthal_ms_sleep ms) e s = [EvUsleep (cast_uint (ms * 1000))]
     /\ st_time (after (swifthal_ms_sleep ms) e s) = S (st_time s)
     /\ same_memory s (after (swifthal_ms_sleep ms) e s)
     /\ st_errno (after (swifthal_ms_sleep ms) e s) = errno_code err)
  /\ (forall us,
        env_usleep e (st_time s) (cast_uint us) = Some err ->
        calls (swifthal_us_wait us) e s = [EvUsleep (cast_uint us)]
        /\ st_time (after (swifthal_us_wait us) e s) = S (st_time s)
        /\ same_memory s (after (swifthal_us_wait us) e s)
        /\ st_errno (after (swifthal_us_wait us) e s) = errno_code err).
Proof.
  split.
  - intros ms H. split; [apply ms_sleep_calls |].
    unfold swifthal_ms_sleep, int_mul. rewrite after_then_ret.
    rewrite <- cast_uint_int in H. unfold after.
    rewrite (usleep_failure _ e s err H).
    repeat split.
  - intros us H. split.
    + unfold swifthal_us_wait. now rewrite calls_then_ret, calls_usleep.
    + unfold swifthal_us_wait. rewrite after_then_ret. unfold after.
      rewrite (usleep_failure _ e s err H).
      repeat split.
Qed.

Lemma sleep_failure_not_retried_witness :
  st_errno (after (swifthal_ms_sleep 250) env_failing s0) = errno_code EINTR.
Proof.
  apply (proj1 (sleep_failure_not_retried env_failing s0 EINTR) 250).
  reflexivity.
Defined.

(* ------------------------------------------------------------------ *)
(** ** Further properties of the uptime query *)

(** X5. [swifthal_uptime_get] never returns an [errno] left by earlier
    code: whatever [errno] holds when it is called, the call it makes and
    the value it returns are the same, and it makes the one call of
    [sysinfo] whether that succeeds or fails. *)
Theorem uptime_get_ignores_stale_errno (e : os_env) (s : state) (stale : Z) :
  result swifthal_uptime_get e (set_errno stale s)
  = result swifthal_uptime_get e s
  /\ calls swifthal_uptime_get e (set_errno stale s) = [EvSysinfo]
  /\ calls swifthal_uptime_get e s = [EvSysinfo].
Proof.
  unfold result, calls, after.
  destruct (env_sysinfo e (st_time s)) as [err | up] eqn:H.
  - rewrite (uptime_get_failure e s err H).
    rewrite (uptime_get_failure e (set_errno stale s) err H).
    cbn [fst snd set_errno tick st_log].
    repeat split; apply skipn_own_length.
  - rewrite (uptime_get_success e s up H).
    rewrite (uptime_get_success e (set_errno stale s) up H).
    cbn [fst snd set_errno tick st_log].
    repeat split; apply skipn_own_length.
Qed.

(* ------------------------------------------------------------------ *)
(** ** Further properties of the cycle counter *)

Lemma hwcycle_get_value (target : arch) (e : os_env) (s : state) :
  result (swifthal_hwcycle_get target) e s = cast_uint (hw_counter e s).
Proof.
  destruct target; [| reflexivity].
  unfold result, swifthal_hwcycle_get, bind, rdtsc, ret, hw_counter.
  cbn [fst]. apply low_word_of_halves, cast_ulong_range.
Qed.

(** X6. Differences of two reads are right modulo 2^32: the [unsigned int]
    difference of what two calls of [swifthal_hwcycle_get] return is the
    difference of the two counter values modulo 2^32, hence the number of
    cycles between them whenever fewer than 2^32 cycles went by, also
    across a wrap of the returned value. *)
Theorem hwcycle_get_delta (target : arch) (e : os_env) (s1 s2 : state) :
  cast_uint (result (swifthal_hwcycle_get target) e s2
             - result (swifthal_hwcycle_get target) e s1)
  = (hw_counter e s2 - hw_counter e s1) mod 2 ^ 32
  /\ (0 <= hw_counter e s2 - hw_counter e s1 < 2 ^ 32 ->
      cast_uint (result (swifthal_hwcycle_get target) e s2
                 - result (swifthal_hwcycle_get target) e s1)
      = hw_counter e s2 - hw_counter e s1).
Proof.
  assert (Hd : cast_uint (result (swifthal_hwcycle_get target) e s2
                          - result (swifthal_hwcycle_get target) e s1)
               = (hw_counter e s2 - hw_counter e s1) mod 2 ^ 32).
  { rewrite !hwcycle_get_value. unfold cast_uint, wrap_unsigned.
    now rewrite <- Zminus_mod. }
  split; [exact Hd |].
  intros Hr. rewrite Hd. now apply Z.mod_small.
Qed.

Lemma hwcycle_get_delta_witness :
  cast_uint
    (result (swifthal_hwcycle_get X86_64) env_ok
       (after (swifthal_hwcycle_get X86_64) env_ok s0)
     - result (swifthal_hwcycle_get X86_64) env_ok s0)
  = hw_counter env_ok (after (swifthal_hwcycle_get X86_64) env_ok s0)
    - hw_counter env_ok s0.
Proof.
  apply (proj2 (hwcycle_get_delta X86_64 env_ok s0
                  (after (swifthal_hwcycle_get X86_64) env_ok s0))).
  vm_compute. split; [discriminate | reflexivity].
Defined.

(* ------------------------------------------------------------------ *)
(** ** Further properties of the random fill *)

(** X7. A negative [length] is not treated as an empty request: converted
    to [size_t] it asks [getrandom] for [2^64 + length] bytes. *)
Theorem randomGet_negative_length (buf length : Z) (e : os_env) (s : state) :
  INT_MIN <= length < 0 ->
  calls (swiftHal_randomGet buf length) e s
  = [EvGetrandom buf (2 ^ 64 + length) 0].
Proof.
  unfold INT_MIN. intros H.
  unfold swiftHal_randomGet. rewrite calls_then_ret, calls_getrandom.
  do 2 f_equal. unfold cast_size, wrap_unsigned.
  rewrite <- (Z_mod_plus_full length 1 (2 ^ 64)).
  rewrite pow2_64. rewrite Z.mod_small; lia.
Qed.

Lemma randomGet_negative_length_witness :
  calls (swiftHal_randomGet 4096 (-1)) env_ok s0
  = [EvGetrandom 4096 (2 ^ 64 + -1) 0].
Proof.
  apply (randomGet_negative_length 4096 (-1) env_ok s0).
  unfold INT_MIN. lia.
Defined.

Lemma getrandom_success (buf buflen flags : Z) (e : os_env) (s : state)
      (ready : list byte) :
  env_getrandom e (st_time s) = inr ready ->
  0 <= buflen ->
  after (getrandom buf buflen flags) e s
  = store_bytes buf
      (firstn (Z.to_nat (Z.min buflen (Z.of_nat (List.length ready)))) ready)
      (tick (EvGetrandom buf buflen flags) s).
Proof.
  intros H Hlen. unfold after, getrandom. rewrite H. cbn [snd].
  now rewrite (Z.max_r 0 buflen Hlen).
Qed.

(** X8. What a fill leaves in memory.  When [getrandom] delivers [ready]
    bytes for a non-negative [length], the first
    [n = min length (number of bytes delivered)] bytes of the buffer hold
    those bytes in order, and every other byte of memory, the rest of the
    buffer after a short fill included, is as it was. *)
Theorem randomGet_fills_prefix (buf length : Z) (e : os_env) (s : state)
        (ready : list byte) :
  0 <= length <= INT_MAX ->
  env_getrandom e (st_time s) = inr ready ->
  (forall i, 0 <= i < Z.min length (Z.of_nat (List.length ready)) ->
     st_mem (after (swiftHal_randomGet buf length) e s) (buf + i)
     = nth (Z.to_nat i) ready x00)
  /\ (forall a,
        ~ in_buffer buf (Z.min length (Z.of_nat (List.length ready))) a ->
        st_mem (after (swiftHal_randomGet buf length) e s) a = st_mem s a).
Proof.
  intros Hlen H. unfold swiftHal_randomGet. rewrite after_then_ret.
  rewrite cast_size_small by (unfold INT_MAX, LONG_MAX in *; lia).
  rewrite (getrandom_success buf length 0 e s ready H) by lia.
  set (n := Z.min length (Z.of_nat (List.length ready))).
  assert (Hn : 0 <= n <= Z.of_nat (List.length ready)) by (unfold n; lia).
  assert (Hw : Z.of_nat (List.length (firstn (Z.to_nat n) ready)) = n)
    by (rewrite length_firstn; lia).
  unfold store_bytes, in_buffer. cbn [st_mem tick]. rewrite Hw.
  split.
  - intros i Hi.
    replace (buf <=? buf + i) with true by (symmetry; apply Z.leb_le; lia).
    replace (buf + i <? buf + n) with true by (symmetry; apply Z.ltb_lt; lia).
    cbn [andb]. replace (buf + i - buf) with i by lia.
    rewrite nth_firstn.
    replace (Z.to_nat i <? Z.to_nat n)%nat with true; [reflexivity |].
    symmetry. apply Nat.ltb_lt. lia.
  - intros a Hout.
    destruct (buf <=? a) eqn:Hlo; [| reflexivity].
    destruct (a <? buf + n) eqn:Hhi; [| reflexivity].
    apply Z.leb_le in Hlo. apply Z.ltb_lt in Hhi. exfalso. lia.
Qed.

Lemma randomGet_fills_prefix_witness :
  st_mem (after (swiftHal_randomGet 4096 4) env_short s0) (4096 + 1)
  = nth (Z.to_nat 1) [xaa; xbb] x00.
Proof.
  assert (Hlen : 0 <= 4 <= INT_MAX) by (unfold INT_MAX; lia).
  apply (proj1 (randomGet_fills_prefix 4096 4 env_short s0 [xaa; xbb]
                  Hlen eq_refl) 1).
  cbn. lia.
Defined.

(** X9. An empty request still reaches the system and writes nothing: with
    [length = 0] the one call [getrandom(buf, 0, 0)] is made and no byte
    of memory changes, whatever the system answers. *)
Theorem randomGet_zero_length (buf : Z) (e : os_env) (s : state) :
  calls (swiftHal_randomGet buf 0) e s = [EvGetrandom buf 0 0]
  /\ same_memory s (after (swiftHal_randomGet buf 0) e s).
Proof.
  unfold swiftHal_randomGet. rewrite calls_then_ret, after_then_ret.
  split; [apply calls_getrandom |].
  intros a. change (cast_size 0) with 0.
  apply (getrandom_frame e s buf 0 0); [lia |].
  unfold in_buffer. lia.
Qed.
